(** * Treasury wallet service: the ledger of [server/treasuryWalletService.ts]

    The service keeps one table of wallet rows and one table of transaction
    rows, and every exported function is an [async] function that awaits a
    few database statements one after the other.  The development embeds

    - the two tables as lists of rows (the order of the rows and possible
      duplicates are kept: nothing in the service itself enforces a key);
    - every exported function as a program over the database statements it
      awaits, in the order in which the source awaits them;
    - a sequential interpreter of such programs (one call running alone),
      and a scheduler that interleaves two calls at their [await]s.

    [Decimal] values are the numbers denoted by decimal.js objects, with
    [plus], [minus] and [lessThan] acting exactly on them; they are embedded
    in the canonical rationals [Qc], which contain every finite decimal and
    every finite JavaScript [number].  The non-finite values (NaN, the
    infinities) and the significant-digit limit of the decimal.js
    configuration are outside the model. *)

From Stdlib Require Import ZArith QArith Qcanon List String Bool Lia.
From Stdlib Require Import Ascii Sorted Permutation.
Import ListNotations.

Local Open Scope string_scope.
Local Open Scope Qc_scope.

(** ** Decimal numbers *)

(** A TypeScript [number] argument (amounts): a finite value. *)
Definition number : Type := Qc.

Module Decimal.

Definition t : Type := Qc.

(** [new Decimal(x)] for a [number], a stored column or a Decimal. *)
Definition new (x : number) : t := x.

Definition plus (x y : t) : t := x + y.
Definition minus (x y : t) : t := x - y.

(** [x.lessThan(y)] *)
Definition lessThan (x y : t) : bool :=
  match x ?= y with
  | Lt => true
  | _ => false
  end.

(** [new Decimal('0.00')] *)
Definition zero : t := 0.

End Decimal.

(** ** The two tables of [shared/schema]

    The schema file is not among the sources; the rows carry the columns the
    service reads or writes.  Columns that the service leaves to the schema
    (the wallet's [status], the time stamps of an insert) are filled by the
    store, see [perform]. *)

Module Wallet.
Record row : Type := mk {
  adminId : string;
  balance : Decimal.t;
  totalDeposited : Decimal.t;
  totalUsed : Decimal.t;
  totalEarned : Decimal.t;
  status : string;
  updatedAt : Z
}.

(** The object given to [insert(treasuryWallets).values]. *)
Record values : Type := mkValues {
  v_adminId : string;
  v_balance : Decimal.t;
  v_totalDeposited : Decimal.t;
  v_totalUsed : Decimal.t;
  v_totalEarned : Decimal.t
}.

(** The object given to [update(treasuryWallets).set]: a field that is
    absent from the object is [None] and keeps the stored column. *)
Record patch : Type := mkPatch {
  set_balance : option Decimal.t;
  set_totalDeposited : option Decimal.t;
  set_totalUsed : option Decimal.t;
  set_totalEarned : option Decimal.t;
  set_updatedAt : option Z
}.

Definition orKeep {A : Type} (new : option A) (old : A) : A :=
  match new with
  | Some x => x
  | None => old
  end.

Definition apply (p : patch) (w : row) : row :=
  {| adminId := adminId w;
     balance := orKeep (set_balance p) (balance w);
     totalDeposited := orKeep (set_totalDeposited p) (totalDeposited w);
     totalUsed := orKeep (set_totalUsed p) (totalUsed w);
     totalEarned := orKeep (set_totalEarned p) (totalEarned w);
     status := status w;
     updatedAt := orKeep (set_updatedAt p) (updatedAt w) |}.
End Wallet.

Module Txn.
(** The row of [treasuryWalletTransactions].  [type] is the string the
    source writes ('deposit', 'debit', 'credit'); an optional column that
    the inserted object does not mention is [None]. *)
Record row : Type := mk {
  adminId : string;
  type : string;
  amount : Decimal.t;
  description : string;
  reference : option string;
  relatedChallengeId : option Z;
  relatedMatchId : option Z;
  status : string;
  balanceBefore : Decimal.t;
  balanceAfter : Decimal.t;
  createdAt : Z
}.

(** The object given to [insert(treasuryWalletTransactions).values]. *)
Record values : Type := mkValues {
  v_adminId : string;
  v_type : string;
  v_amount : Decimal.t;
  v_description : string;
  v_reference : option string;
  v_relatedChallengeId : option Z;
  v_relatedMatchId : option Z;
  v_status : string;
  v_balanceBefore : Decimal.t;
  v_balanceAfter : Decimal.t
}.

Definition stamp (now : Z) (v : values) : row :=
  {| adminId := v_adminId v;
     type := v_type v;
     amount := v_amount v;
     description := v_description v;
     reference := v_reference v;
     relatedChallengeId := v_relatedChallengeId v;
     relatedMatchId := v_relatedMatchId v;
     status := v_status v;
     balanceBefore := v_balanceBefore v;
     balanceAfter := v_balanceAfter v;
     createdAt := now |}.
End Txn.

(** The database: the contents of the two tables, in insertion order. *)
Record Db : Type := mkDb {
  treasuryWallets : list Wallet.row;
  treasuryWalletTransactions : list Txn.row
}.

(** What the schema and the clock supply: the default of the wallet's
    [status] column, and the time of the call. *)
Record Env : Type := mkEnv {
  statusDefault : string;
  now : Z
}.

(** ** Statements, programs and errors *)

(** The statements the service awaits, one constructor per query shape, and
    [new Date()]. *)
Inductive Cmd : Type :=
| NewDate
| SelectWallets (adminId : string) (limit : nat)
| InsertWalletReturning (v : Wallet.values)
| UpdateWallets (adminId : string) (p : Wallet.patch)
| InsertTransaction (v : Txn.values)
| SelectTransactions (adminId : string) (limit : nat).

(** What a statement evaluates to. *)
Definition answer (c : Cmd) : Type :=
  match c with
  | NewDate => Z
  | SelectWallets _ _ => list Wallet.row
  | InsertWalletReturning _ => list Wallet.row
  | UpdateWallets _ _ => unit
  | InsertTransaction _ => unit
  | SelectTransactions _ _ => list Txn.row
  end.

(** The exceptions of the service.  The two [new Error(...)] of the source
    are told apart by their message; the insufficient-balance message is
    built from the balance and the requested amount, which the constructor
    carries.  [TypeErrorUndefined] is the error of reading a property of
    [undefined]. *)
Inductive Error : Type :=
| TreasuryWalletNotFound
| InsufficientTreasuryBalance (have : Decimal.t) (need : number)
| TypeErrorUndefined.

(** The body of an [async] function: it returns, throws, or runs a
    statement and goes on with its answer. *)
Inductive Prog (A : Type) : Type :=
| Ret (a : A)
| Throw (e : Error)
| Await (c : Cmd) (k : answer c -> Prog A).

Arguments Ret {A} a.
Arguments Throw {A} e.
Arguments Await {A} c k.

Fixpoint bind {A B : Type} (p : Prog A) (f : A -> Prog B) : Prog B :=
  match p with
  | Ret a => f a
  | Throw e => Throw e
  | Await c k => Await c (fun x => bind (k x) f)
  end.

Notation "x <- p ;; q" := (bind p (fun x => q))
  (at level 61, p at next level, right associativity).
Notation "'await' c" := (Await c Ret) (at level 60).

(** ** The store *)

Definition forAdmin (adminId : string) (w : Wallet.row) : bool :=
  String.eqb (Wallet.adminId w) adminId.

Definition txForAdmin (adminId : string) (r : Txn.row) : bool :=
  String.eqb (Txn.adminId r) adminId.

(** [orderBy(desc(createdAt))]: an insertion sort, latest first; of two rows
    with the same [createdAt] the one inserted later comes first. *)
Fixpoint insertDesc (r : Txn.row) (l : list Txn.row) : list Txn.row :=
  match l with
  | [] => [r]
  | r' :: l' =>
      if (Txn.createdAt r' <? Txn.createdAt r)%Z
      then r :: l
      else r' :: insertDesc r l'
  end.

Definition orderByCreatedAtDesc (l : list Txn.row) : list Txn.row :=
  fold_right insertDesc [] l.

Definition newWallet (env : Env) (v : Wallet.values) : Wallet.row :=
  {| Wallet.adminId := Wallet.v_adminId v;
     Wallet.balance := Wallet.v_balance v;
     Wallet.totalDeposited := Wallet.v_totalDeposited v;
     Wallet.totalUsed := Wallet.v_totalUsed v;
     Wallet.totalEarned := Wallet.v_totalEarned v;
     Wallet.status := statusDefault env;
     Wallet.updatedAt := now env |}.

(** One statement against the store: its answer and the store after it. *)
Definition perform (env : Env) (c : Cmd) (db : Db) : answer c * Db :=
  match c return answer c * Db with
  | NewDate => (now env, db)
  | SelectWallets adminId limit =>
      (firstn limit (filter (forAdmin adminId) (treasuryWallets db)), db)
  | InsertWalletReturning v =>
      let w := newWallet env v in
      ([w],
       {| treasuryWallets := treasuryWallets db ++ [w];
          treasuryWalletTransactions := treasuryWalletTransactions db |})
  | UpdateWallets adminId p =>
      (tt,
       {| treasuryWallets :=
            map (fun w => if forAdmin adminId w then Wallet.apply p w else w)
                (treasuryWallets db);
          treasuryWalletTransactions := treasuryWalletTransactions db |})
  | InsertTransaction v =>
      (tt,
       {| treasuryWallets := treasuryWallets db;
          treasuryWalletTransactions :=
            treasuryWalletTransactions db ++ [Txn.stamp (now env) v] |})
  | SelectTransactions adminId limit =>
      (firstn limit
         (orderByCreatedAtDesc
            (filter (txForAdmin adminId) (treasuryWalletTransactions db))),
       db)
  end.

(** How a call ends. *)
Inductive Outcome (A : Type) : Type :=
| Returned (a : A)
| Thrown (e : Error).

Arguments Returned {A} a.
Arguments Thrown {A} e.

(** A call running alone: every awaited statement is performed at once. *)
Fixpoint exec (env : Env) {A : Type} (p : Prog A) (db : Db) : Outcome A * Db :=
  match p with
  | Ret a => (Returned a, db)
  | Throw e => (Thrown e, db)
  | Await c k => let (x, db') := perform env c db in exec env (k x) db'
  end.

(** ** The service *)

Definition getTreasuryWallet (adminId : string) : Prog (option Wallet.row) :=
  wallet <- await (SelectWallets adminId 1) ;;
  Ret (match wallet with
       | w :: _ => Some w
       | [] => None
       end).

(** [result[0]] of the returned rows; [None] is JavaScript's [undefined]. *)
Definition createOrGetTreasuryWallet (adminId : string)
  : Prog (option Wallet.row) :=
  existing <- getTreasuryWallet adminId ;;
  match existing with
  | Some w => Ret (Some w)
  | None =>
      result <- await (InsertWalletReturning
                         {| Wallet.v_adminId := adminId;
                            Wallet.v_balance := Decimal.zero;
                            Wallet.v_totalDeposited := Decimal.zero;
                            Wallet.v_totalUsed := Decimal.zero;
                            Wallet.v_totalEarned := Decimal.zero |}) ;;
      Ret (nth_error result 0)
  end.

(** Reading a property of the awaited wallet. *)
Definition deref {A : Type} (w : option Wallet.row) (k : Wallet.row -> Prog A)
  : Prog A :=
  match w with
  | Some w => k w
  | None => Throw TypeErrorUndefined
  end.

Definition depositToTreasuryWallet
  (adminId : string) (amount : number) (paystackReference : string)
  : Prog Decimal.t :=
  wallet <- createOrGetTreasuryWallet adminId ;;
  deref wallet (fun wallet =>
  let newBalance :=
    Decimal.plus (Decimal.new (Wallet.balance wallet)) (Decimal.new amount) in
  let newDeposited :=
    Decimal.plus (Decimal.new (Wallet.totalDeposited wallet))
                 (Decimal.new amount) in
  date <- await NewDate ;;
  _ <- await (UpdateWallets adminId
                {| Wallet.set_balance := Some newBalance;
                   Wallet.set_totalDeposited := Some newDeposited;
                   Wallet.set_totalUsed := None;
                   Wallet.set_totalEarned := None;
                   Wallet.set_updatedAt := Some date |}) ;;
  _ <- await (InsertTransaction
                {| Txn.v_adminId := adminId;
                   Txn.v_type := "deposit";
                   Txn.v_amount := Decimal.new amount;
                   Txn.v_description := "Deposited to Treasury wallet";
                   Txn.v_reference := Some paystackReference;
                   Txn.v_relatedChallengeId := None;
                   Txn.v_relatedMatchId := None;
                   Txn.v_status := "completed";
                   Txn.v_balanceBefore := Decimal.new (Wallet.balance wallet);
                   Txn.v_balanceAfter := newBalance |}) ;;
  Ret newBalance).

Definition debitTreasuryWallet
  (adminId : string) (amount : number) (description : string)
  (challengeId : option Z) : Prog Decimal.t :=
  wallet <- getTreasuryWallet adminId ;;
  match wallet with
  | None => Throw TreasuryWalletNotFound
  | Some wallet =>
      let walletBalance := Decimal.new (Wallet.balance wallet) in
      if Decimal.lessThan walletBalance (Decimal.new amount)
      then Throw (InsufficientTreasuryBalance walletBalance amount)
      else
        let newBalance := Decimal.minus walletBalance (Decimal.new amount) in
        let newUsed :=
          Decimal.plus (Decimal.new (Wallet.totalUsed wallet))
                       (Decimal.new amount) in
        date <- await NewDate ;;
        _ <- await (UpdateWallets adminId
                      {| Wallet.set_balance := Some newBalance;
                         Wallet.set_totalDeposited := None;
                         Wallet.set_totalUsed := Some newUsed;
                         Wallet.set_totalEarned := None;
                         Wallet.set_updatedAt := Some date |}) ;;
        _ <- await (InsertTransaction
                      {| Txn.v_adminId := adminId;
                         Txn.v_type := "debit";
                         Txn.v_amount := Decimal.new amount;
                         Txn.v_description := description;
                         Txn.v_reference := None;
                         Txn.v_relatedChallengeId := challengeId;
                         Txn.v_relatedMatchId := None;
                         Txn.v_status := "completed";
                         Txn.v_balanceBefore := walletBalance;
                         Txn.v_balanceAfter := newBalance |}) ;;
        Ret newBalance
  end.

Definition creditTreasuryWallet
  (adminId : string) (amount : number) (description : string)
  (challengeId : option Z) (matchId : option Z) : Prog Decimal.t :=
  wallet <- getTreasuryWallet adminId ;;
  match wallet with
  | None => Throw TreasuryWalletNotFound
  | Some wallet =>
      let newBalance :=
        Decimal.plus (Decimal.new (Wallet.balance wallet))
                     (Decimal.new amount) in
      let newEarned :=
        Decimal.plus (Decimal.new (Wallet.totalEarned wallet))
                     (Decimal.new amount) in
      date <- await NewDate ;;
      _ <- await (UpdateWallets adminId
                    {| Wallet.set_balance := Some newBalance;
                       Wallet.set_totalDeposited := None;
                       Wallet.set_totalUsed := None;
                       Wallet.set_totalEarned := Some newEarned;
                       Wallet.set_updatedAt := Some date |}) ;;
      _ <- await (InsertTransaction
                    {| Txn.v_adminId := adminId;
                       Txn.v_type := "credit";
                       Txn.v_amount := Decimal.new amount;
                       Txn.v_description := description;
                       Txn.v_reference := None;
                       Txn.v_relatedChallengeId := challengeId;
                       Txn.v_relatedMatchId := matchId;
                       Txn.v_status := "completed";
                       Txn.v_balanceBefore :=
                         Decimal.new (Wallet.balance wallet);
                       Txn.v_balanceAfter := newBalance |}) ;;
      Ret newBalance
  end.

(** [limit: number = 50]: an omitted argument is [None]. *)
Definition getTreasuryWalletTransactions
  (adminId : string) (limit : option nat) : Prog (list Txn.row) :=
  await (SelectTransactions adminId
           (match limit with Some n => n | None => 50%nat end)).

Module Summary.
Record t : Type := mk {
  balance : Decimal.t;
  totalDeposited : Decimal.t;
  totalUsed : Decimal.t;
  totalEarned : Decimal.t;
  netPnL : Decimal.t;
  status : string
}.
End Summary.

Definition getTreasuryWalletSummary (adminId : string)
  : Prog (option Summary.t) :=
  wallet <- getTreasuryWallet adminId ;;
  match wallet with
  | None => Ret None
  | Some wallet =>
      Ret (Some {| Summary.balance := Wallet.balance wallet;
                   Summary.totalDeposited := Wallet.totalDeposited wallet;
                   Summary.totalUsed := Wallet.totalUsed wallet;
                   Summary.totalEarned := Wallet.totalEarned wallet;
                   Summary.netPnL :=
                     Decimal.minus (Decimal.new (Wallet.totalEarned wallet))
                                   (Decimal.new (Wallet.totalUsed wallet));
                   Summary.status := Wallet.status wallet |})
  end.

(** ** Reading the store *)

(** The wallet row of an admin as [getTreasuryWallet] reads it: the first
    row of the table with that [adminId]. *)
Definition walletOf (db : Db) (adminId : string) : option Wallet.row :=
  find (forAdmin adminId) (treasuryWallets db).

Definition balanceOf (db : Db) (adminId : string) : option Decimal.t :=
  option_map Wallet.balance (walletOf db adminId).

(** The three ledger operations, for statements that range over them. *)
Inductive LedgerOp : Type :=
| Deposit (amount : number) (paystackReference : string)
| Debit (amount : number) (description : string) (challengeId : option Z)
| Credit (amount : number) (description : string)
         (challengeId : option Z) (matchId : option Z).

Definition ledgerCall (adminId : string) (op : LedgerOp) : Prog Decimal.t :=
  match op with
  | Deposit amount paystackReference =>
      depositToTreasuryWallet adminId amount paystackReference
  | Debit amount description challengeId =>
      debitTreasuryWallet adminId amount description challengeId
  | Credit amount description challengeId matchId =>
      creditTreasuryWallet adminId amount description challengeId matchId
  end.

Definition opAmount (op : LedgerOp) : number :=
  match op with
  | Deposit amount _ => amount
  | Debit amount _ _ => amount
  | Credit amount _ _ _ => amount
  end.

Definition opType (op : LedgerOp) : string :=
  match op with
  | Deposit _ _ => "deposit"
  | Debit _ _ _ => "debit"
  | Credit _ _ _ _ => "credit"
  end.

(** Balance before plus the amount for a deposit or a credit, minus the
    amount for a debit. *)
Definition balanceDelta (before : Decimal.t) (op : LedgerOp) : Decimal.t :=
  match op with
  | Deposit amount _ => before + amount
  | Debit amount _ _ => before - amount
  | Credit amount _ _ _ => before + amount
  end.

(** ** The effect of a call on the store *)

Definition updateRows (a : string) (p : Wallet.patch) (l : list Wallet.row)
  : list Wallet.row :=
  map (fun w => if forAdmin a w then Wallet.apply p w else w) l.

Definition zeroValues (a : string) : Wallet.values :=
  {| Wallet.v_adminId := a;
     Wallet.v_balance := Decimal.zero;
     Wallet.v_totalDeposited := Decimal.zero;
     Wallet.v_totalUsed := Decimal.zero;
     Wallet.v_totalEarned := Decimal.zero |}.

Definition addWallet (w : Wallet.row) (db : Db) : Db :=
  {| treasuryWallets := treasuryWallets db ++ [w];
     treasuryWalletTransactions := treasuryWalletTransactions db |}.

(** The store after the update and the insert of a ledger operation. *)
Definition settle (env : Env) (a : string) (p : Wallet.patch)
  (v : Txn.values) (db : Db) : Db :=
  {| treasuryWallets := updateRows a p (treasuryWallets db);
     treasuryWalletTransactions :=
       treasuryWalletTransactions db ++ [Txn.stamp (now env) v] |}.

Definition depositPatch (env : Env) (w : Wallet.row) (amount : number)
  : Wallet.patch :=
  {| Wallet.set_balance := Some (Wallet.balance w + amount);
     Wallet.set_totalDeposited := Some (Wallet.totalDeposited w + amount);
     Wallet.set_totalUsed := None;
     Wallet.set_totalEarned := None;
     Wallet.set_updatedAt := Some (now env) |}.

Definition debitPatch (env : Env) (w : Wallet.row) (amount : number)
  : Wallet.patch :=
  {| Wallet.set_balance := Some (Wallet.balance w - amount);
     Wallet.set_totalDeposited := None;
     Wallet.set_totalUsed := Some (Wallet.totalUsed w + amount);
     Wallet.set_totalEarned := None;
     Wallet.set_updatedAt := Some (now env) |}.

Definition creditPatch (env : Env) (w : Wallet.row) (amount : number)
  : Wallet.patch :=
  {| Wallet.set_balance := Some (Wallet.balance w + amount);
     Wallet.set_totalDeposited := None;
     Wallet.set_totalUsed := None;
     Wallet.set_totalEarned := Some (Wallet.totalEarned w + amount);
     Wallet.set_updatedAt := Some (now env) |}.

Definition opPatch (env : Env) (w : Wallet.row) (op : LedgerOp)
  : Wallet.patch :=
  match op with
  | Deposit amount _ => depositPatch env w amount
  | Debit amount _ _ => debitPatch env w amount
  | Credit amount _ _ _ => creditPatch env w amount
  end.

Definition opValues (a : string) (w : Wallet.row) (op : LedgerOp)
  : Txn.values :=
  {| Txn.v_adminId := a;
     Txn.v_type := opType op;
     Txn.v_amount := opAmount op;
     Txn.v_description :=
       match op with
       | Deposit _ _ => "Deposited to Treasury wallet"
       | Debit _ d _ => d
       | Credit _ d _ _ => d
       end;
     Txn.v_reference :=
       match op with
       | Deposit _ r => Some r
       | _ => None
       end;
     Txn.v_relatedChallengeId :=
       match op with
       | Deposit _ _ => None
       | Debit _ _ c => c
       | Credit _ _ c _ => c
       end;
     Txn.v_relatedMatchId :=
       match op with
       | Credit _ _ _ m => m
       | _ => None
       end;
     Txn.v_status := "completed";
     Txn.v_balanceBefore := Wallet.balance w;
     Txn.v_balanceAfter := balanceDelta (Wallet.balance w) op |}.

(** ** Properties of rows and stores *)

(** None of the three running totals of [w'] is below that of [w]. *)
Definition totalsLe (w w' : Wallet.row) : Prop :=
  Wallet.totalDeposited w <= Wallet.totalDeposited w'
  /\ Wallet.totalUsed w <= Wallet.totalUsed w'
  /\ Wallet.totalEarned w <= Wallet.totalEarned w'.

(** ** Sequences of calls *)

(** One call of an exported function of the service. *)
Inductive Call : Type :=
| GetTreasuryWallet (adminId : string)
| CreateOrGetTreasuryWallet (adminId : string)
| Ledger (adminId : string) (op : LedgerOp)
| GetTreasuryWalletTransactions (adminId : string) (limit : option nat)
| GetTreasuryWalletSummary (adminId : string).

(** The store a call leaves when it runs alone, whether it returns or
    throws. *)
Definition storeAfter (env : Env) (c : Call) (db : Db) : Db :=
  match c with
  | GetTreasuryWallet a => snd (exec env (getTreasuryWallet a) db)
  | CreateOrGetTreasuryWallet a =>
      snd (exec env (createOrGetTreasuryWallet a) db)
  | Ledger a op => snd (exec env (ledgerCall a op) db)
  | GetTreasuryWalletTransactions a limit =>
      snd (exec env (getTreasuryWalletTransactions a limit) db)
  | GetTreasuryWalletSummary a =>
      snd (exec env (getTreasuryWalletSummary a) db)
  end.

(** Calls made one after the other, each with the time at which it runs. *)
Fixpoint runCalls (cs : list (Env * Call)) (db : Db) : Db :=
  match cs with
  | [] => db
  | (env, c) :: cs' => runCalls cs' (storeAfter env c db)
  end.

(** The steps by which a call changes the store: at most the insert of a
    fresh zero wallet for an admin that has none, then at most one update
    of an admin's rows together with the insert of one transaction row. *)
Inductive Created (env : Env) (db : Db) : Db -> Prop :=
| created_none : Created env db db
| created_wallet (a : string) :
    walletOf db a = None ->
    Created env db (addWallet (newWallet env (zeroValues a)) db).

Inductive Settled (env : Env) (base : Db) : Db -> Prop :=
| settled_none : Settled env base base
| settled_op (a : string) (w : Wallet.row) (op : LedgerOp) :
    walletOf base a = Some w ->
    Settled env base (settle env a (opPatch env w op) (opValues a w op) base).

(** Proves an equation of decimals by [ring] over the rationals. *)
Ltac qc_ring :=
  repeat match goal with
         | |- context [?f ?x] =>
             match type of (f x) with
             | Decimal.t =>
                 let q := fresh "q" in
                 generalize (f x : Qc); intro q
             | number =>
                 let q := fresh "q" in
                 generalize (f x : Qc); intro q
             end
         end;
  repeat match goal with
         | x : number |- _ => change number with Qc in x
         | x : Decimal.t |- _ => change Decimal.t with Qc in x
         end;
  repeat match goal with
         | |- @eq ?T _ _ => progress change T with Qc
         end;
  ring.

(** Reads the columns of a patched row. *)
Ltac wallet_fields :=
  cbn [Wallet.apply Wallet.orKeep opPatch depositPatch debitPatch creditPatch
       Wallet.balance Wallet.totalDeposited Wallet.totalUsed
       Wallet.totalEarned Wallet.set_balance Wallet.set_totalDeposited
       Wallet.set_totalUsed Wallet.set_totalEarned].



(** The transaction table of [db'] is that of [db] followed by more rows. *)
Definition extends (db db' : Db) : Prop :=
  exists added,
    treasuryWalletTransactions db'
    = (treasuryWalletTransactions db ++ added)%list.

(** The [adminId] column of the wallet table. *)
Definition walletKeys (db : Db) : list string :=
  map Wallet.adminId (treasuryWallets db).

(** ** Two calls in flight *)

(** [new Date()] is evaluated in place; every other statement is awaited,
    and another call may run before the awaiting one resumes. *)
Definition inPlace (env : Env) (c : Cmd) : option (answer c) :=
  match c return option (answer c) with
  | NewDate => Some (now env)
  | _ => None
  end.

(** One turn of a call: its code runs up to its next awaited statement,
    which is performed against the store; the call then waits with the
    rest of its code.  A finished call does nothing. *)
Fixpoint turn (env : Env) {A : Type} (p : Prog A) (db : Db) : Prog A * Db :=
  match p with
  | Await c k =>
      match inPlace env c with
      | Some x => turn env (k x) db
      | None => let (x, db') := perform env c db in (k x, db')
      end
  | _ => (p, db)
  end.

(** The statements a call awaits, in order, when it runs alone. *)
Fixpoint awaited (env : Env) {A : Type} (p : Prog A) (db : Db) : list Cmd :=
  match p with
  | Await c k =>
      let (x, db') := perform env c db in
      match inPlace env c with
      | Some _ => awaited env (k x) db'
      | None => c :: awaited env (k x) db'
      end
  | _ => []
  end.

Inductive Side : Type := First | Second.

(** Two calls in flight against one store. *)
Record Pool (A B : Type) : Type := mkPool {
  first : Prog A;
  second : Prog B;
  store : Db
}.

Arguments mkPool {A B} first second store.
Arguments first {A B} p.
Arguments second {A B} p.
Arguments store {A B} p.

Definition schedule (env1 env2 : Env) {A B : Type} (pool : Pool A B)
  (s : Side) : Pool A B :=
  match s with
  | First =>
      let (p, db) := turn env1 (first pool) (store pool) in
      mkPool p (second pool) db
  | Second =>
      let (p, db) := turn env2 (second pool) (store pool) in
      mkPool (first pool) p db
  end.

Definition interleave (env1 env2 : Env) {A B : Type} (sides : list Side)
  (pool : Pool A B) : Pool A B :=
  fold_left (schedule env1 env2) sides pool.

(** ** The log of one admin *)

(** The transaction rows of an admin, in insertion order. *)
Definition rowsOf (db : Db) (adminId : string) : list Txn.row :=
  filter (txForAdmin adminId) (treasuryWalletTransactions db).

(** Every row starts from the balance the row before it ended with, the
    first one from [start]. *)
Fixpoint chained (start : Decimal.t) (rows : list Txn.row) : Prop :=
  match rows with
  | [] => True
  | r :: rest =>
      Txn.balanceBefore r = start /\ chained (Txn.balanceAfter r) rest
  end.

(** The [balanceAfter] of the last row, [start] when there is none. *)
Definition closing (start : Decimal.t) (rows : list Txn.row) : Decimal.t :=
  fold_left (fun _ r => Txn.balanceAfter r) rows start.

(** The sum of the amounts of the rows of one type. *)
Definition sumOfType (type : string) (rows : list Txn.row) : Decimal.t :=
  fold_right
    (fun r acc =>
       if String.eqb (Txn.type r) type then Txn.amount r + acc else acc)
    0 rows.

(** The wallet of an admin agrees with the admin's log: the rows chain from
    0.00, the balance is the one the last row ends with and each running
    total is the sum of the rows of its type; an admin without a wallet has
    no row. *)
Definition reconciled (db : Db) (adminId : string) : Prop :=
  chained Decimal.zero (rowsOf db adminId)
  /\ match walletOf db adminId with
     | None => rowsOf db adminId = []
     | Some w =>
         Wallet.balance w = closing Decimal.zero (rowsOf db adminId)
         /\ Wallet.totalDeposited w = sumOfType "deposit" (rowsOf db adminId)
         /\ Wallet.totalUsed w = sumOfType "debit" (rowsOf db adminId)
         /\ Wallet.totalEarned w = sumOfType "credit" (rowsOf db adminId)
     end.

(** Rows in the order of [orderBy(desc(createdAt))]. *)
Definition latestFirst (rows : list Txn.row) : Prop :=
  StronglySorted
    (fun r r' => (Txn.createdAt r' <= Txn.createdAt r)%Z) rows.

(** ** Operations one after the other on one wallet *)



Definition callAdmin (c : Call) : string :=
  match c with
  | GetTreasuryWallet a => a
  | CreateOrGetTreasuryWallet a => a
  | Ledger a _ => a
  | GetTreasuryWalletTransactions a _ => a
  | GetTreasuryWalletSummary a => a
  end.



(** ** The transaction list of the client's [TreasuryWalletPanel.tsx] *)

Module Panel.




End Panel.



(** ** The request log and the error handler of the server entry point *)

Module Server.

(** A JavaScript string: its UTF-16 code units. *)
Definition JsString : Type := list N.

Definition units (s : string) : JsString :=
  map N_of_ascii (list_ascii_of_string s).

(** The one code unit of the horizontal ellipsis, U+2026. *)
Definition ellipsis : JsString := [8230%N].

Fixpoint startsWith (prefix s : JsString) : bool :=
  match prefix, s with
  | [], _ => true
  | c :: prefix', d :: s' => N.eqb c d && startsWith prefix' s'
  | _ :: _, [] => false
  end.

(** [s.slice(0, n)] for [n] within the string or beyond it. *)
Definition slice0 (n : nat) (s : JsString) : JsString := firstn n s.

(** The line before the length check.  [statusCode] and [duration] are the
    decimal renderings of the two numbers and [captured] the rendering of
    the captured body by [JSON.stringify], [None] when no truthy body was
    captured. *)
Definition fullLine (method path statusCode duration : JsString)
  (captured : option JsString) : JsString :=
  let logLine :=
    (method ++ units " " ++ path ++ units " " ++ statusCode
     ++ units " in " ++ duration ++ units "ms")%list in
  match captured with
  | Some json => (logLine ++ units " :: " ++ json)%list
  | None => logLine
  end.

(** The [finish] listener of the logging middleware: the line it hands to
    [log], [None] when it logs nothing. *)
Definition requestLog (method path statusCode duration : JsString)
  (captured : option JsString) : option JsString :=
  if startsWith (units "/api") path
  then
    let logLine := fullLine method path statusCode duration captured in
    Some (if (80 <? List.length logLine)%nat
          then (slice0 79 logLine ++ ellipsis)%list
          else logLine)
  else None.

(** [hay.includes(needle)] *)
Fixpoint includes (needle hay : JsString) : bool :=
  startsWith needle hay
  || match hay with
     | [] => false
     | _ :: hay' => includes needle hay'
     end.

(** [args.join(' ')], the arguments being rendered as strings already. *)
Fixpoint join (args : list JsString) : JsString :=
  match args with
  | [] => []
  | [s] => s
  | s :: rest => (s ++ units " " ++ join rest)%list
  end.

(** The replacement of [console.log] installed on the server: the
    arguments it passes on to the original [console.log], [None] when it
    swallows the call. *)
Definition consoleLog (args : list JsString) : option (list JsString) :=
  let message := join args in
  if negb (includes (units "[INFO]") message)
     && negb (includes (units "gramJS") message)
     && negb (includes (units "Running gramJS") message)
     && negb (includes (units "Connecting to") message)
     && negb (includes (units "Connection to") message)
     && negb (includes (units "Using LAYER") message)
  then Some args
  else None.

(** The markers that decide whether a message is swallowed. *)
Definition markers : list JsString :=
  [units "[INFO]"; units "gramJS"; units "Connecting to";
   units "Connection to"; units "Using LAYER"].

(** A JavaScript value, as far as [||] looks at it. *)
Inductive JsValue : Type :=
| JsUndefined
| JsNull
| JsBoolean (b : bool)
| JsNumber (x : number)
| JsNaN
| JsStr (s : JsString)
| JsObject.

Definition truthy (v : JsValue) : bool :=
  match v with
  | JsUndefined => false
  | JsNull => false
  | JsBoolean b => b
  | JsNumber x => negb (Qc_eq_bool x 0)
  | JsNaN => false
  | JsStr s => negb (Nat.eqb (List.length s) 0)
  | JsObject => true
  end.

(** [a || b] *)
Definition jsOr (a b : JsValue) : JsValue := if truthy a then a else b.

(** The properties of the error object the handler reads. *)
Record Err : Type := mkErr {
  err_status : JsValue;
  err_statusCode : JsValue;
  err_message : JsValue
}.

(** The error handler: the status and the message of the JSON response it
    sends before it throws the error again. *)
Definition errorResponse (err : Err) : JsValue * JsValue :=
  let status :=
    jsOr (jsOr (err_status err) (err_statusCode err))
         (JsNumber (Q2Qc 500)) in
  let message :=
    jsOr (err_message err) (JsStr (units "Internal Server Error")) in
  (status, message).

End Server.

(** ** Sample data *)

Module Sample.
Definition naira (n : Z) : number := Q2Qc (inject_Z n).

Definition env : Env := {| statusDefault := "active"; now := 1700000000 |}.

Definition admin : string := "admin-1".

(** A funded wallet: 150 deposited, 20 earned, 70 used. *)
Definition wallet : Wallet.row :=
  {| Wallet.adminId := admin;
     Wallet.balance := naira 100;
     Wallet.totalDeposited := naira 150;
     Wallet.totalUsed := naira 70;
     Wallet.totalEarned := naira 20;
     Wallet.status := "active";
     Wallet.updatedAt := 1690000000 |}.

Definition db : Db :=
  {| treasuryWallets := [wallet]; treasuryWalletTransactions := [] |}.

Definition empty : Db :=
  {| treasuryWallets := []; treasuryWalletTransactions := [] |}.

(** The sample store with one transaction row already logged. *)
Definition logged : Db :=
  {| treasuryWallets := [wallet];
     treasuryWalletTransactions :=
       [{| Txn.adminId := admin;
           Txn.type := "deposit";
           Txn.amount := naira 150;
           Txn.description := "Deposited to Treasury wallet";
           Txn.reference := Some "psk-ref-1";
           Txn.relatedChallengeId := None;
           Txn.relatedMatchId := None;
           Txn.status := "completed";
           Txn.balanceBefore := naira 0;
           Txn.balanceAfter := naira 150;
           Txn.createdAt := 1680000000 |}] |}.

(** Calls made after [logged]: a debit, a read of the log, a deposit. *)
Definition calls : list (Env * Call) :=
  [(env, Ledger admin (Debit (naira 20) "fund match" None));
   (env, GetTreasuryWalletTransactions admin None);
   (env, Ledger admin (Deposit (naira 5) "psk-ref-2"))].


(** A request to the history route and its captured JSON body. *)
Definition requestMethod : Server.JsString := Server.units "GET".

Definition requestPath : Server.JsString :=
  Server.units "/api/admin/treasury/wallet/transactions".

Definition requestBody : Server.JsString :=
  Server.units "[{'id':1,'type':'deposit','amount':'150.00'}]".

(** An error that carries only a [statusCode]. *)
Definition notFound : Server.Err :=
  {| Server.err_status := Server.JsUndefined;
     Server.err_statusCode := Server.JsNumber (naira 404);
     Server.err_message := Server.JsStr (Server.units "Not Found") |}.

End Sample.

(** * Proofs *)

(** ** Comparisons *)

Lemma lessThan_true (x y : Decimal.t) :
  Decimal.lessThan x y = true <-> x < y.
Proof.
  unfold Decimal.lessThan. rewrite Qclt_alt.
  destruct (x ?= y); split; congruence.
Qed.

Lemma lessThan_false (x y : Decimal.t) :
  Decimal.lessThan x y = false <-> y <= x.
Proof.
  split; intros H.
  - apply Qcnot_lt_le. intros L. apply lessThan_true in L. congruence.
  - destruct (Decimal.lessThan x y) eqn:E; [|reflexivity].
    apply lessThan_true in E. exfalso. exact (Qcle_not_lt _ _ H E).
Qed.

(** ** Lemmas on the store *)

Lemma filter_firstn_1_find {A : Type} (f : A -> bool) (l : list A) :
  match firstn 1 (filter f l) with
  | x :: _ => Some x
  | [] => None
  end = find f l.
Proof.
  induction l as [|x l IH]; simpl; [reflexivity|].
  destruct (f x); simpl; [reflexivity|exact IH].
Qed.

Lemma forAdmin_apply (a : string) (p : Wallet.patch) (w : Wallet.row) :
  forAdmin a (Wallet.apply p w) = forAdmin a w.
Proof. reflexivity. Qed.

Lemma find_updateRows_same (a : string) (p : Wallet.patch) l :
  find (forAdmin a) (updateRows a p l)
  = option_map (Wallet.apply p) (find (forAdmin a) l).
Proof.
  unfold updateRows.
  induction l as [|x l IH]; cbn [map find]; [reflexivity|].
  destruct (forAdmin a x) eqn:E.
  - rewrite forAdmin_apply, E. reflexivity.
  - rewrite E. exact IH.
Qed.

Lemma forAdmin_other (a b : string) (w : Wallet.row) :
  a <> b -> forAdmin a w = true -> forAdmin b w = false.
Proof.
  unfold forAdmin. intros N E. apply String.eqb_eq in E.
  apply String.eqb_neq. congruence.
Qed.

Lemma find_updateRows_other (a b : string) (p : Wallet.patch) l :
  a <> b ->
  find (forAdmin b) (updateRows a p l) = find (forAdmin b) l.
Proof.
  intros N. unfold updateRows.
  induction l as [|x l IH]; cbn [map find]; [reflexivity|].
  destruct (forAdmin a x) eqn:E.
  - rewrite forAdmin_apply, (forAdmin_other a b x N E). exact IH.
  - destruct (forAdmin b x); [reflexivity|exact IH].
Qed.

Lemma find_app_none {A : Type} (f : A -> bool) (l l' : list A) :
  find f l = None -> find f (l ++ l') = find f l'.
Proof.
  induction l as [|x l IH]; simpl; [reflexivity|].
  destruct (f x); [discriminate|exact IH].
Qed.


Lemma forAdmin_refl (env : Env) (v : Wallet.values) :
  forAdmin (Wallet.v_adminId v) (newWallet env v) = true.
Proof. apply String.eqb_refl. Qed.

(** ** The calls, run alone *)

Lemma exec_bind (env : Env) {A B : Type} (p : Prog A) (f : A -> Prog B) db :
  exec env (bind p f) db =
  match exec env p db with
  | (Returned a, db') => exec env (f a) db'
  | (Thrown e, db') => (Thrown e, db')
  end.
Proof.
  revert db. induction p as [a|e|c k IH]; intros db; simpl;
    try reflexivity.
  destruct (perform env c db) as [x db']. apply IH.
Qed.

Lemma exec_getTreasuryWallet (env : Env) (a : string) (db : Db) :
  exec env (getTreasuryWallet a) db = (Returned (walletOf db a), db).
Proof.
  unfold getTreasuryWallet, walletOf. cbn [bind exec perform].
  rewrite filter_firstn_1_find. reflexivity.
Qed.

Lemma exec_createOrGet_existing (env : Env) (a : string) (db : Db) w :
  walletOf db a = Some w ->
  exec env (createOrGetTreasuryWallet a) db = (Returned (Some w), db).
Proof.
  intros H. unfold createOrGetTreasuryWallet.
  rewrite exec_bind, exec_getTreasuryWallet, H. reflexivity.
Qed.

Lemma exec_createOrGet_missing (env : Env) (a : string) (db : Db) :
  walletOf db a = None ->
  exec env (createOrGetTreasuryWallet a) db
  = (Returned (Some (newWallet env (zeroValues a))),
     addWallet (newWallet env (zeroValues a)) db).
Proof.
  intros H. unfold createOrGetTreasuryWallet.
  rewrite exec_bind, exec_getTreasuryWallet, H. reflexivity.
Qed.

Lemma walletOf_addWallet (env : Env) (a : string) (db : Db) :
  walletOf db a = None ->
  walletOf (addWallet (newWallet env (zeroValues a)) db) a
  = Some (newWallet env (zeroValues a)).
Proof.
  intros H. unfold walletOf, addWallet.
  cbn [treasuryWallets]. rewrite (find_app_none _ _ _ H).
  cbn [find]. change a with (Wallet.v_adminId (zeroValues a)) at 1.
  rewrite forAdmin_refl. reflexivity.
Qed.

(** How a ledger operation ends, and the store it leaves, when it runs
    alone on a store in which the admin's wallet is [w]. *)
Lemma exec_ledgerCall_existing (env : Env) (a : string) (op : LedgerOp)
  (db : Db) (w : Wallet.row) :
  walletOf db a = Some w ->
  exec env (ledgerCall a op) db =
  match op with
  | Debit amount _ _ =>
      if Decimal.lessThan (Wallet.balance w) amount
      then (Thrown (InsufficientTreasuryBalance (Wallet.balance w) amount), db)
      else (Returned (balanceDelta (Wallet.balance w) op),
            settle env a (opPatch env w op) (opValues a w op) db)
  | _ => (Returned (balanceDelta (Wallet.balance w) op),
          settle env a (opPatch env w op) (opValues a w op) db)
  end.
Proof.
  intros H. destruct op as [amount r|amount d c|amount d c m];
    cbn [ledgerCall].
  - unfold depositToTreasuryWallet.
    rewrite exec_bind, (exec_createOrGet_existing env a db w H). reflexivity.
  - unfold debitTreasuryWallet.
    rewrite exec_bind, exec_getTreasuryWallet, H.
    unfold Decimal.new.
    destruct (Decimal.lessThan (Wallet.balance w) amount); reflexivity.
  - unfold creditTreasuryWallet.
    rewrite exec_bind, exec_getTreasuryWallet, H. reflexivity.
Qed.

(** The same when the admin has no wallet row. *)
Lemma exec_ledgerCall_missing (env : Env) (a : string) (op : LedgerOp)
  (db : Db) :
  walletOf db a = None ->
  exec env (ledgerCall a op) db =
  match op with
  | Deposit amount _ =>
      let w := newWallet env (zeroValues a) in
      (Returned (balanceDelta (Wallet.balance w) op),
       settle env a (opPatch env w op) (opValues a w op) (addWallet w db))
  | _ => (Thrown TreasuryWalletNotFound, db)
  end.
Proof.
  intros H. destruct op as [amount r|amount d c|amount d c m];
    cbn [ledgerCall].
  - unfold depositToTreasuryWallet.
    rewrite exec_bind, (exec_createOrGet_missing env a db H). reflexivity.
  - unfold debitTreasuryWallet.
    rewrite exec_bind, exec_getTreasuryWallet, H. reflexivity.
  - unfold creditTreasuryWallet.
    rewrite exec_bind, exec_getTreasuryWallet, H. reflexivity.
Qed.

Lemma walletOf_settle_same env a p v db :
  walletOf (settle env a p v db) a
  = option_map (Wallet.apply p) (walletOf db a).
Proof. apply find_updateRows_same. Qed.

Lemma walletOf_settle_other env a b p v db :
  a <> b -> walletOf (settle env a p v db) b = walletOf db b.
Proof. apply find_updateRows_other. Qed.

(** ** Order facts on amounts *)

Lemma Qcle_plus_nonneg (t x : Qc) : 0 <= x -> t <= t + x.
Proof.
  intros H. rewrite <- (Qcplus_0_r t) at 1.
  apply Qcplus_le_compat; [apply Qcle_refl|exact H].
Qed.

Lemma lost_amount (b x y : Qc) : b + x + y - (b + y) = x.
Proof. ring. Qed.

(** ** Balance and running totals of one operation *)



Lemma option_cases {A : Type} (o : option A) :
  (exists x, o = Some x) \/ o = None.
Proof. destruct o; [left; eexists; reflexivity|right; reflexivity]. Qed.

(** Every way a ledger operation can end when it runs alone: it throws and
    leaves the store as it was, or it settles on the wallet it read, which
    is the stored one or the one a deposit has just created. *)
Lemma ledgerCall_cases (env : Env) (db : Db) (a : string) (op : LedgerOp)
  (r : Outcome Decimal.t) (db' : Db) :
  exec env (ledgerCall a op) db = (r, db') ->
  (exists e, r = Thrown e /\ db' = db)
  \/ (exists w base,
        walletOf base a = Some w
        /\ r = Returned (balanceDelta (Wallet.balance w) op)
        /\ db' = settle env a (opPatch env w op) (opValues a w op) base
        /\ ((base = db /\ walletOf db a = Some w)
            \/ (walletOf db a = None
                /\ w = newWallet env (zeroValues a)
                /\ base = addWallet w db
                /\ exists amount ref, op = Deposit amount ref))).
Proof.
  intros E. destruct (option_cases (walletOf db a)) as [[w H]|H].
  - rewrite (exec_ledgerCall_existing env a op db w H) in E.
    assert (S : (Returned (balanceDelta (Wallet.balance w) op),
                 settle env a (opPatch env w op) (opValues a w op) db)
                = (r, db') ->
                exists w0 base,
                  walletOf base a = Some w0
                  /\ r = Returned (balanceDelta (Wallet.balance w0) op)
                  /\ db' = settle env a (opPatch env w0 op)
                                  (opValues a w0 op) base
                  /\ ((base = db /\ walletOf db a = Some w0)
                      \/ (walletOf db a = None
                          /\ w0 = newWallet env (zeroValues a)
                          /\ base = addWallet w0 db
                          /\ exists amount ref, op = Deposit amount ref))).
    { intros P. injection P as <- <-.
      exists w, db. repeat split; auto. }
    destruct op as [amount ref|amount d c|amount d c m].
    + right. apply S, E.
    + destruct (Decimal.lessThan (Wallet.balance w) amount).
      * left. injection E as <- <-. eexists; split; reflexivity.
      * right. apply S, E.
    + right. apply S, E.
  - rewrite (exec_ledgerCall_missing env a op db H) in E.
    destruct op as [amount ref|amount d c|amount d c m].
    + right. cbv zeta in E. injection E as <- <-.
      exists (newWallet env (zeroValues a)),
             (addWallet (newWallet env (zeroValues a)) db).
      split; [apply walletOf_addWallet; exact H|].
      split; [reflexivity|]. split; [reflexivity|].
      right. repeat split; eauto.
    + left. injection E as <- <-. eexists; split; reflexivity.
    + left. injection E as <- <-. eexists; split; reflexivity.
Qed.

Lemma find_app_last_false {A : Type} (f : A -> bool) (l : list A) (x : A) :
  f x = false -> find f (l ++ [x]) = find f l.
Proof.
  intros H. induction l as [|y l IH]; simpl.
  - rewrite H. reflexivity.
  - destruct (f y); [reflexivity|exact IH].
Qed.

Lemma walletOf_addWallet_other (env : Env) (a b : string) (db : Db) :
  a <> b ->
  walletOf (addWallet (newWallet env (zeroValues a)) db) b = walletOf db b.
Proof.
  intros N. unfold walletOf, addWallet. cbn [treasuryWallets].
  apply find_app_last_false.
  apply (forAdmin_other a b); [exact N|].
  change a with (Wallet.v_adminId (zeroValues a)) at 1.
  apply forAdmin_refl.
Qed.

Lemma totalsLe_refl (w : Wallet.row) : totalsLe w w.
Proof. repeat split; apply Qcle_refl. Qed.

Lemma totalsLe_opPatch (env : Env) (w : Wallet.row) (op : LedgerOp) :
  0 <= opAmount op -> totalsLe w (Wallet.apply (opPatch env w op) w).
Proof.
  intros H. destruct op; cbn in H |- *; unfold totalsLe; cbn;
    repeat split;
    first [apply Qcle_refl | apply Qcle_plus_nonneg; exact H].
Qed.

(** C2, as the code has it.  When the amount is not negative, a ledger
    operation, whether it returns or throws, leaves every wallet row that it
    finds in place with none of [totalDeposited], [totalUsed],
    [totalEarned] smaller than before. *)
Theorem C2_totals_non_decreasing
  (env : Env) (db : Db) (a : string) (op : LedgerOp)
  (r : Outcome Decimal.t) (db' : Db) (b : string) (w : Wallet.row) :
  0 <= opAmount op ->
  exec env (ledgerCall a op) db = (r, db') ->
  walletOf db b = Some w ->
  exists w', walletOf db' b = Some w' /\ totalsLe w w'.
Proof.
  intros Hpos E Hb.
  destruct (ledgerCall_cases env db a op r db' E)
    as [(e & -> & ->)|(w0 & base & Hw0 & -> & -> & Hbase)].
  - exists w. split; [exact Hb|apply totalsLe_refl].
  - destruct (String.string_dec a b) as [<-|N].
    + rewrite walletOf_settle_same.
      destruct Hbase as [(-> & Ha)|(Ha & _)]; [|congruence].
      rewrite Hb in Ha. injection Ha as <-. rewrite Hb. cbn [option_map].
      eexists; split; [reflexivity|apply totalsLe_opPatch; exact Hpos].
    + rewrite (walletOf_settle_other env a b _ _ base N).
      exists w. split; [|apply totalsLe_refl].
      destruct Hbase as [(-> & _)|(_ & -> & -> & _)]; [exact Hb|].
      rewrite (walletOf_addWallet_other env a b db N). exact Hb.
Qed.

Lemma C2_totals_non_decreasing_witness :
  exists w',
    walletOf (snd (exec Sample.env
                     (ledgerCall Sample.admin
                        (Credit (Sample.naira 40) "match won" (Some 7%Z)
                                (Some 3%Z)))
                     Sample.db))
             Sample.admin = Some w'
    /\ totalsLe Sample.wallet w'.
Proof.
  eapply (C2_totals_non_decreasing Sample.env Sample.db Sample.admin
            (Credit (Sample.naira 40) "match won" (Some 7%Z) (Some 3%Z))
            _ _ Sample.admin Sample.wallet).
  - vm_compute. discriminate.
  - apply surjective_pairing.
  - reflexivity.
Defined.

(** C2, as stated, fails: the service accepts a negative amount, and a
    deposit of -5 to the sample wallet lowers [totalDeposited] from 150 to
    145. *)
Lemma C2_counterexample :
  exists w',
    walletOf (snd (exec Sample.env
                     (ledgerCall Sample.admin
                        (Deposit (Sample.naira (-5)) "ref-1"))
                     Sample.db))
             Sample.admin = Some w'
    /\ Wallet.totalDeposited w' < Wallet.totalDeposited Sample.wallet.
Proof.
  eexists. split; [reflexivity|]. vm_compute. reflexivity.
Qed.

(** ** The transaction row of one operation *)



(** ** Operations on an admin without a wallet *)

(** C4, as the code has it.  When the admin has no wallet row, a deposit
    creates the row with zero balance and totals, applies the amount to it
    and returns; a debit and a credit throw 'Treasury wallet not found' and
    leave the store as it was. *)
Theorem C4_missing_wallet
  (env : Env) (db : Db) (a : string) (op : LedgerOp) :
  walletOf db a = None ->
  match op with
  | Deposit amount _ =>
      exists db' w',
        exec env (ledgerCall a op) db
        = (Returned (Decimal.zero + amount), db')
        /\ walletOf db' a = Some w'
        /\ Wallet.balance w' = Decimal.zero + amount
        /\ Wallet.totalDeposited w' = Decimal.zero + amount
        /\ Wallet.totalUsed w' = Decimal.zero
        /\ Wallet.totalEarned w' = Decimal.zero
        /\ List.length (treasuryWallets db')
           = S (List.length (treasuryWallets db))
  | _ => exec env (ledgerCall a op) db = (Thrown TreasuryWalletNotFound, db)
  end.
Proof.
  intros H. rewrite (exec_ledgerCall_missing env a op db H).
  destruct op as [amount ref|amount d c|amount d c m]; try reflexivity.
  cbv zeta. eexists. eexists. split; [reflexivity|].
  rewrite walletOf_settle_same, (walletOf_addWallet env a db H).
  split; [reflexivity|]. do 4 (split; [reflexivity|]).
  unfold settle, updateRows, addWallet. cbn [treasuryWallets].
  rewrite length_map, length_app. cbn [List.length]. lia.
Qed.

Lemma C4_missing_wallet_witness :
  exec Sample.env
       (ledgerCall Sample.admin
          (Credit (Sample.naira 10) "match won" None None))
       Sample.empty
  = (Thrown TreasuryWalletNotFound, Sample.empty).
Proof.
  apply (C4_missing_wallet Sample.env Sample.empty Sample.admin
           (Credit (Sample.naira 10) "match won" None None)).
  reflexivity.
Defined.

(** C4, as stated, fails: on the empty store a debit does not create the
    wallet; it throws 'Treasury wallet not found' and the wallet table is
    still empty. *)
Lemma C4_counterexample :
  walletOf Sample.empty Sample.admin = None
  /\ exec Sample.env
          (debitTreasuryWallet Sample.admin (Sample.naira 10) "fund match" None)
          Sample.empty
     = (Thrown TreasuryWalletNotFound, Sample.empty).
Proof. split; reflexivity. Qed.

(** ** Failing debits *)

(** C5.  A debit throws the insufficient-balance error exactly when the
    admin's wallet exists and its balance is strictly less than the amount;
    and whenever a debit throws, the store (wallet rows and transaction
    rows) is the one it started from. *)
Theorem C5_debit_errors
  (env : Env) (db : Db) (a : string) (amount : number)
  (description : string) (challengeId : option Z) :
  ((exists have need,
       fst (exec env (debitTreasuryWallet a amount description challengeId) db)
       = Thrown (InsufficientTreasuryBalance have need))
   <-> (exists w, walletOf db a = Some w /\ Wallet.balance w < amount))
  /\ (forall e db',
         exec env (debitTreasuryWallet a amount description challengeId) db
         = (Thrown e, db') ->
         db' = db).
Proof.
  change (debitTreasuryWallet a amount description challengeId)
    with (ledgerCall a (Debit amount description challengeId)).
  split.
  - destruct (option_cases (walletOf db a)) as [[w H]|H].
    + rewrite (exec_ledgerCall_existing env a _ db w H).
      destruct (Decimal.lessThan (Wallet.balance w) amount) eqn:L.
      * split; [intros _|intros _; cbn [fst]; eauto].
        exists w. split; [exact H|apply lessThan_true; exact L].
      * split; [intros (h & n & F); discriminate|].
        intros (w' & Hw' & Lt). rewrite H in Hw'. injection Hw' as <-.
        apply lessThan_true in Lt. congruence.
    + rewrite (exec_ledgerCall_missing env a _ db H).
      split; [intros (h & n & F); discriminate|].
      intros (w' & Hw' & _). congruence.
  - intros e db' E.
    destruct (ledgerCall_cases env db a _ _ db' E)
      as [(e' & _ & ->)|(w & base & _ & Hr & _)];
      [reflexivity|discriminate].
Qed.

Lemma C5_debit_errors_witness :
  exists w,
    walletOf Sample.db Sample.admin = Some w
    /\ Wallet.balance w < Sample.naira 500.
Proof.
  apply (proj1 (proj1 (C5_debit_errors Sample.env Sample.db Sample.admin
                         (Sample.naira 500) "fund match" None))).
  exists (Sample.naira 100), (Sample.naira 500). reflexivity.
Defined.

(** ** The summary *)

Lemma find_none_iff (a : string) (l : list Wallet.row) :
  find (forAdmin a) l = None
  <-> (forall w, In w l -> Wallet.adminId w <> a).
Proof.
  split.
  - intros H w Hin E.
    apply (find_none _ _ H) in Hin.
    unfold forAdmin in Hin. rewrite E, String.eqb_refl in Hin. discriminate.
  - intros H. destruct (find (forAdmin a) l) as [w|] eqn:F; [|reflexivity].
    apply find_some in F. destruct F as [Hin E].
    apply String.eqb_eq in E. exfalso. exact (H w Hin E).
Qed.



Lemma exec_summary_store (env : Env) (db : Db) (a : string) :
  exists r, exec env (getTreasuryWalletSummary a) db = (Returned r, db).
Proof.
  unfold getTreasuryWalletSummary.
  rewrite exec_bind, exec_getTreasuryWallet.
  destruct (walletOf db a); eexists; reflexivity.
Qed.

(** ** The steps of a call *)

Lemma storeAfter_steps (env : Env) (c : Call) (db : Db) :
  exists base, Created env db base /\ Settled env base (storeAfter env c db).
Proof.
  destruct c as [a|a|a op|a limit|a]; cbn [storeAfter].
  - rewrite exec_getTreasuryWallet. exists db. split; constructor.
  - destruct (option_cases (walletOf db a)) as [[w H]|H].
    + rewrite (exec_createOrGet_existing env a db w H).
      exists db. split; constructor.
    + rewrite (exec_createOrGet_missing env a db H).
      eexists. split; [apply created_wallet; exact H|constructor].
  - destruct (exec env (ledgerCall a op) db) as [r db'] eqn:E.
    destruct (ledgerCall_cases env db a op r db' E)
      as [(e & _ & ->)|(w & base & Hw & _ & -> & Hbase)].
    + exists db. split; constructor.
    + exists base. split; [|apply settled_op; exact Hw].
      destruct Hbase as [(-> & _)|(H & -> & -> & _)];
        [constructor|apply created_wallet; exact H].
  - exists db. split; constructor.
  - destruct (exec_summary_store env db a) as [r ->].
    exists db. split; constructor.
Qed.

(** A property of the store that both kinds of step preserve holds after
    every sequence of calls. *)
Lemma runCalls_preserves (P : Db -> Prop) :
  (forall env db base, P db -> Created env db base -> P base) ->
  (forall env base db', P base -> Settled env base db' -> P db') ->
  forall cs db, P db -> P (runCalls cs db).
Proof.
  intros HC HS cs. induction cs as [|[env c] cs IH]; intros db HP;
    cbn [runCalls]; [exact HP|].
  apply IH.
  destruct (storeAfter_steps env c db) as (base & C & S).
  eapply HS; [|exact S]. eapply HC; [exact HP|exact C].
Qed.

(** ** The ledger invariant *)











(** ** The transaction log *)

Lemma extends_refl (db : Db) : extends db db.
Proof. exists []. symmetry. apply app_nil_r. Qed.

Lemma extends_created (db0 : Db) env db base :
  extends db0 db -> Created env db base -> extends db0 base.
Proof. intros E C. destruct C; exact E. Qed.

Lemma extends_settled (db0 : Db) env base db' :
  extends db0 base -> Settled env base db' -> extends db0 db'.
Proof.
  intros [added E] S. destruct S as [|a w op _]; [exists added; exact E|].
  exists (added ++ [Txn.stamp (now env) (opValues a w op)])%list.
  unfold settle. cbn [treasuryWalletTransactions].
  rewrite E. symmetry. apply app_assoc.
Qed.

(** C7.  After every sequence of calls of the service the transaction table
    is the table before followed by the rows inserted since: no row is
    removed, reordered or changed, so the row at every position, with its
    [balanceBefore] and [balanceAfter], is still the same row. *)
Theorem C7_transactions_append_only (cs : list (Env * Call)) (db : Db) :
  (exists added,
      treasuryWalletTransactions (runCalls cs db)
      = (treasuryWalletTransactions db ++ added)%list)
  /\ (forall i row,
         nth_error (treasuryWalletTransactions db) i = Some row ->
         nth_error (treasuryWalletTransactions (runCalls cs db)) i = Some row).
Proof.
  assert (E : extends db (runCalls cs db)).
  { apply (runCalls_preserves (extends db)).
    - intros env d base. apply extends_created.
    - intros env base d'. apply extends_settled.
    - apply extends_refl. }
  split; [exact E|].
  destruct E as [added E]. intros i row H. rewrite E.
  rewrite nth_error_app1; [exact H|].
  apply nth_error_Some. congruence.
Qed.

Lemma C7_transactions_append_only_witness :
  exists row,
    nth_error (treasuryWalletTransactions Sample.logged) 0 = Some row
    /\ nth_error
         (treasuryWalletTransactions (runCalls Sample.calls Sample.logged)) 0
       = Some row.
Proof.
  eexists. split; [reflexivity|].
  apply (proj2 (C7_transactions_append_only Sample.calls Sample.logged)
           0%nat).
  reflexivity.
Defined.

(** ** One wallet row per admin *)

Lemma NoDup_snoc {A : Type} (l : list A) (x : A) :
  NoDup l -> ~ In x l -> NoDup (l ++ [x]).
Proof.
  intros N. induction N as [|y l Hy N IH]; intros Hx; simpl.
  - constructor; [intros []|constructor].
  - constructor.
    + rewrite in_app_iff. intros [H|[H|[]]]; [exact (Hy H)|].
      apply Hx. left. symmetry. exact H.
    + apply IH. intros H. apply Hx. right. exact H.
Qed.

Lemma walletKeys_updateRows (a : string) (p : Wallet.patch) l :
  map Wallet.adminId (updateRows a p l) = map Wallet.adminId l.
Proof.
  unfold updateRows. rewrite map_map. apply map_ext.
  intros w. destruct (forAdmin a w); reflexivity.
Qed.

Lemma walletKeys_created env db base :
  NoDup (walletKeys db) -> Created env db base -> NoDup (walletKeys base).
Proof.
  intros N C. destruct C as [|a H]; [exact N|].
  unfold walletKeys, addWallet. cbn [treasuryWallets].
  rewrite map_app. apply NoDup_snoc; [exact N|].
  cbn [map newWallet zeroValues Wallet.adminId Wallet.v_adminId].
  intros Hin. apply in_map_iff in Hin. destruct Hin as (w & E & Hin).
  apply (proj1 (find_none_iff a (treasuryWallets db)) H w Hin E).
Qed.

Lemma walletKeys_settled env base db' :
  NoDup (walletKeys base) -> Settled env base db' -> NoDup (walletKeys db').
Proof.
  intros N S. destruct S as [|a w op _]; [exact N|].
  unfold walletKeys, settle. cbn [treasuryWallets].
  rewrite walletKeys_updateRows. exact N.
Qed.

(** C8.  [createOrGetTreasuryWallet] returns the stored wallet and leaves
    the store as it was when the admin has one, and inserts exactly one row,
    for that admin, when there is none; and from a store in which no two
    wallet rows have the same [adminId], no sequence of calls made one after
    the other reaches a store in which two do. *)
Theorem C8_one_wallet_per_admin
  (env : Env) (db : Db) (a : string) (cs : list (Env * Call)) :
  (forall w,
      walletOf db a = Some w ->
      exec env (createOrGetTreasuryWallet a) db = (Returned (Some w), db))
  /\ (walletOf db a = None ->
      exists w,
        exec env (createOrGetTreasuryWallet a) db
        = (Returned (Some w), addWallet w db)
        /\ Wallet.adminId w = a)
  /\ (NoDup (walletKeys db) -> NoDup (walletKeys (runCalls cs db))).
Proof.
  split; [|split].
  - intros w H. apply exec_createOrGet_existing. exact H.
  - intros H. eexists. split;
      [apply exec_createOrGet_missing; exact H|reflexivity].
  - apply (runCalls_preserves (fun d => NoDup (walletKeys d))).
    + intros e d base. apply walletKeys_created.
    + intros e base d'. apply walletKeys_settled.
Qed.

Lemma C8_one_wallet_per_admin_witness :
  NoDup (walletKeys
           (runCalls
              [(Sample.env, CreateOrGetTreasuryWallet Sample.admin);
               (Sample.env, Ledger "admin-2" (Deposit (Sample.naira 9) "r"));
               (Sample.env, CreateOrGetTreasuryWallet "admin-2");
               (Sample.env, Ledger Sample.admin (Deposit (Sample.naira 1) "s"))]
              Sample.empty)).
Proof.
  apply (C8_one_wallet_per_admin Sample.env Sample.empty Sample.admin).
  constructor.
Defined.

(** ** Interleaved calls *)

(** Running a call to its end is taking its turns one after the other. *)
Lemma exec_turn (env : Env) {A : Type} (p : Prog A) (db : Db) :
  exec env p db = exec env (fst (turn env p db)) (snd (turn env p db)).
Proof.
  revert db. induction p as [x|e|c k IH]; intros db; try reflexivity.
  cbn [turn exec]. revert k IH.
  destruct c; intros k IH; cbn [inPlace perform]; try reflexivity.
  apply IH.
Qed.

Lemma select_one (db : Db) (a : string) (w : Wallet.row) :
  walletOf db a = Some w ->
  firstn 1 (filter (forAdmin a) (treasuryWallets db)) = [w].
Proof.
  unfold walletOf. induction (treasuryWallets db) as [|x l IH];
    cbn [find filter]; [discriminate|].
  destruct (forAdmin a x); [|exact IH].
  intros E. injection E as ->. reflexivity.
Qed.

Lemma awaited_ledgerCall (env : Env) (db : Db) (a : string)
  (op : LedgerOp) (w : Wallet.row) :
  walletOf db a = Some w ->
  match op with
  | Debit amount _ _ => amount <= Wallet.balance w
  | _ => True
  end ->
  awaited env (ledgerCall a op) db
  = [SelectWallets a 1;
     UpdateWallets a (opPatch env w op);
     InsertTransaction (opValues a w op)].
Proof.
  intros H Hop. destruct op as [amount r|amount d c|amount d c m];
    cbn [ledgerCall];
    unfold depositToTreasuryWallet, debitTreasuryWallet,
      creditTreasuryWallet, createOrGetTreasuryWallet, getTreasuryWallet;
    cbn [bind awaited perform inPlace];
    rewrite (select_one db a w H); cbn [bind awaited perform inPlace deref];
    try reflexivity.
  apply lessThan_false in Hop. unfold Decimal.new.
  rewrite Hop. reflexivity.
Qed.

(** The pool in which both deposits have read the wallet and neither has
    written yet, then the first writes and logs, then the second. *)
Lemma interleaved_deposits
  (env1 env2 : Env) (db : Db) (a : string) (w : Wallet.row)
  (x y : number) (r1 r2 : string) :
  walletOf db a = Some w ->
  interleave env1 env2 [First; Second; First; First; Second; Second]
    (mkPool (depositToTreasuryWallet a x r1)
            (depositToTreasuryWallet a y r2) db)
  = mkPool
      (Ret (Wallet.balance w + x))
      (Ret (Wallet.balance w + y))
      (settle env2 a (depositPatch env2 w y) (opValues a w (Deposit y r2))
         (settle env1 a (depositPatch env1 w x) (opValues a w (Deposit x r1))
            db)).
Proof.
  intros H. unfold interleave. cbn [fold_left].
  unfold schedule at 6. cbn [first second store].
  unfold depositToTreasuryWallet at 1, createOrGetTreasuryWallet,
    getTreasuryWallet.
  cbn [bind turn inPlace perform].
  rewrite (select_one db a w H). cbn [bind deref].
  unfold schedule at 5. cbn [first second store].
  unfold depositToTreasuryWallet at 1, createOrGetTreasuryWallet,
    getTreasuryWallet.
  cbn [bind turn inPlace perform].
  rewrite (select_one db a w H). cbn [bind deref].
  reflexivity.
Qed.

(** C10.  A ledger operation that returns has awaited three separate
    statements: the select of the wallet, the update computed from the row
    that was read, and the insert of the transaction row.  Two deposits to
    one wallet whose turns interleave so that both read before either
    writes both return and both log a transaction, yet the wallet ends with
    the balance and [totalDeposited] of the second alone: the amount of the
    first is lost, whereas the same two deposits made one after the other
    add both amounts. *)
Theorem C10_lost_update
  (env1 env2 : Env) (db : Db) (a : string) (w : Wallet.row)
  (x y : number) (r1 r2 : string) :
  walletOf db a = Some w ->
  (forall op,
      match op with
      | Debit amount _ _ => amount <= Wallet.balance w
      | _ => True
      end ->
      awaited env1 (ledgerCall a op) db
      = [SelectWallets a 1;
         UpdateWallets a (opPatch env1 w op);
         InsertTransaction (opValues a w op)])
  /\ (let final :=
        interleave env1 env2 [First; Second; First; First; Second; Second]
          (mkPool (depositToTreasuryWallet a x r1)
                  (depositToTreasuryWallet a y r2) db) in
      first final = Ret (Wallet.balance w + x)
      /\ second final = Ret (Wallet.balance w + y)
      /\ treasuryWalletTransactions (store final)
         = (treasuryWalletTransactions db
            ++ [Txn.stamp (now env1) (opValues a w (Deposit x r1));
                Txn.stamp (now env2) (opValues a w (Deposit y r2))])%list
      /\ exists w',
           walletOf (store final) a = Some w'
           /\ Wallet.balance w' = Wallet.balance w + y
           /\ Wallet.totalDeposited w' = Wallet.totalDeposited w + y)
  /\ balanceOf
       (snd (exec env2 (depositToTreasuryWallet a y r2)
               (snd (exec env1 (depositToTreasuryWallet a x r1) db)))) a
     = Some (Wallet.balance w + x + y)
  /\ (x <> 0 -> Wallet.balance w + y <> Wallet.balance w + x + y).
Proof.
  intros H. split; [|split; [|split]].
  - intros op Hop. apply awaited_ledgerCall; assumption.
  - cbv zeta. rewrite (interleaved_deposits env1 env2 db a w x y r1 r2 H).
    cbn [first second store].
    split; [reflexivity|]. split; [reflexivity|]. split.
    + unfold settle. cbn [treasuryWalletTransactions].
      rewrite <- app_assoc. reflexivity.
    + rewrite !walletOf_settle_same, H. cbn [option_map].
      eexists. split; [reflexivity|]. split; reflexivity.
  - change (depositToTreasuryWallet a x r1)
      with (ledgerCall a (Deposit x r1)).
    change (depositToTreasuryWallet a y r2)
      with (ledgerCall a (Deposit y r2)).
    rewrite (exec_ledgerCall_existing env1 a _ db w H). cbn [snd].
    rewrite (exec_ledgerCall_existing env2 a _ _
               (Wallet.apply (opPatch env1 w (Deposit x r1)) w)).
    + cbn [snd]. unfold balanceOf.
      rewrite walletOf_settle_same, walletOf_settle_same, H.
      reflexivity.
    + rewrite walletOf_settle_same, H. reflexivity.
  - intros Hx E. apply Hx.
    assert (F : Wallet.balance w + x + y - (Wallet.balance w + y) = x)
      by apply lost_amount.
    rewrite <- E in F. rewrite <- F. apply Qcplus_opp_r.
Qed.

Lemma C10_lost_update_witness :
  exists w',
    walletOf
      (store
         (interleave Sample.env Sample.env
            [First; Second; First; First; Second; Second]
            (mkPool
               (depositToTreasuryWallet Sample.admin (Sample.naira 30) "r1")
               (depositToTreasuryWallet Sample.admin (Sample.naira 5) "r2")
               Sample.db)))
      Sample.admin
    = Some w'
    /\ Wallet.balance w' = Wallet.balance Sample.wallet + Sample.naira 5
    /\ Wallet.totalDeposited w'
       = Wallet.totalDeposited Sample.wallet + Sample.naira 5.
Proof.
  apply (C10_lost_update Sample.env Sample.env Sample.db Sample.admin
           Sample.wallet (Sample.naira 30) (Sample.naira 5) "r1" "r2").
  reflexivity.
Defined.

(** ** The transaction history *)

Lemma insertDesc_perm (r : Txn.row) (l : list Txn.row) :
  Permutation (insertDesc r l) (r :: l).
Proof.
  induction l as [|r' l IH]; cbn [insertDesc]; [reflexivity|].
  destruct (Txn.createdAt r' <? Txn.createdAt r)%Z; [reflexivity|].
  rewrite IH. apply perm_swap.
Qed.

Lemma orderBy_perm (l : list Txn.row) :
  Permutation (orderByCreatedAtDesc l) l.
Proof.
  unfold orderByCreatedAtDesc.
  induction l as [|r l IH]; cbn [fold_right]; [reflexivity|].
  rewrite insertDesc_perm. constructor. exact IH.
Qed.

Lemma insertDesc_sorted (r : Txn.row) (l : list Txn.row) :
  latestFirst l -> latestFirst (insertDesc r l).
Proof.
  unfold latestFirst. intros S.
  induction S as [|r' l S IH F]; cbn [insertDesc].
  - constructor; constructor.
  - destruct (Txn.createdAt r' <? Txn.createdAt r)%Z eqn:E.
    + apply Z.ltb_lt in E. constructor.
      * constructor; assumption.
      * constructor; [lia|].
        eapply Forall_impl; [|exact F]. cbv beta. intros x Hx. lia.
    + apply Z.ltb_ge in E. constructor; [exact IH|].
      eapply Permutation_Forall;
        [symmetry; apply insertDesc_perm|].
      constructor; assumption.
Qed.

Lemma orderBy_sorted (l : list Txn.row) :
  latestFirst (orderByCreatedAtDesc l).
Proof.
  unfold orderByCreatedAtDesc.
  induction l as [|r l IH]; cbn [fold_right].
  - constructor.
  - apply insertDesc_sorted, IH.
Qed.


Lemma exec_transactions (env : Env) (db : Db) (a : string)
  (limit : option nat) :
  exec env (getTreasuryWalletTransactions a limit) db
  = (Returned
       (firstn (match limit with Some n => n | None => 50%nat end)
               (orderByCreatedAtDesc (rowsOf db a))),
     db).
Proof. reflexivity. Qed.



(** X2.  The rows [getTreasuryWalletTransactions] returns are the latest of
    the admin: followed by the rows it leaves out, in some order, they are
    all the rows of the admin arranged from the latest [createdAt] to the
    earliest. *)
Theorem X2_history_latest_first
  (env : Env) (db : Db) (a : string) (limit : option nat) :
  exists rows omitted,
    exec env (getTreasuryWalletTransactions a limit) db = (Returned rows, db)
    /\ Permutation (rows ++ omitted) (rowsOf db a)
    /\ latestFirst (rows ++ omitted).
Proof.
  rewrite exec_transactions.
  exists (firstn (match limit with Some n => n | None => 50%nat end)
                 (orderByCreatedAtDesc (rowsOf db a))),
         (skipn (match limit with Some n => n | None => 50%nat end)
                (orderByCreatedAtDesc (rowsOf db a))).
  split; [reflexivity|].
  rewrite firstn_skipn. split; [apply orderBy_perm|apply orderBy_sorted].
Qed.

(** ** Creating and finding a wallet *)

(** X3.  [createOrGetTreasuryWallet] is idempotent: it returns a wallet of
    the admin, a second call returns the same wallet and leaves the store
    of the first call as it is, and [getTreasuryWallet] then finds that
    wallet. *)
Theorem X3_createOrGet_idempotent
  (env1 env2 env3 : Env) (db : Db) (a : string) :
  exists w db1,
    exec env1 (createOrGetTreasuryWallet a) db = (Returned (Some w), db1)
    /\ Wallet.adminId w = a
    /\ exec env2 (createOrGetTreasuryWallet a) db1 = (Returned (Some w), db1)
    /\ exec env3 (getTreasuryWallet a) db1 = (Returned (Some w), db1).
Proof.
  destruct (option_cases (walletOf db a)) as [[w H]|H].
  - exists w, db.
    rewrite !(exec_createOrGet_existing _ a db w H).
    rewrite exec_getTreasuryWallet, H.
    repeat split. unfold walletOf in H. apply find_some in H.
    apply String.eqb_eq, H.
  - exists (newWallet env1 (zeroValues a)),
           (addWallet (newWallet env1 (zeroValues a)) db).
    rewrite (exec_createOrGet_missing env1 a db H).
    pose proof (walletOf_addWallet env1 a db H) as H1.
    rewrite (exec_createOrGet_existing env2 a _ _ H1).
    rewrite exec_getTreasuryWallet, H1. repeat split.
Qed.

(** ** What a call leaves alone *)

Lemma rowsOf_settle_other env a b p (v : Txn.values) db :
  Txn.v_adminId v = a -> a <> b ->
  rowsOf (settle env a p v db) b = rowsOf db b.
Proof.
  intros Hv N. unfold rowsOf, settle. cbn [treasuryWalletTransactions].
  rewrite filter_app. cbn [filter].
  assert (E : txForAdmin b (Txn.stamp (now env) v) = false).
  { unfold txForAdmin. cbn [Txn.stamp Txn.adminId].
    apply String.eqb_neq. congruence. }
  rewrite E. apply app_nil_r.
Qed.

Lemma storeAfter_other (env : Env) (c : Call) (db : Db) (b : string) :
  callAdmin c <> b ->
  walletOf (storeAfter env c db) b = walletOf db b
  /\ rowsOf (storeAfter env c db) b = rowsOf db b.
Proof.
  intros N. destruct c as [a|a|a op|a limit|a];
    cbn [storeAfter callAdmin] in N |- *.
  - rewrite exec_getTreasuryWallet. split; reflexivity.
  - destruct (option_cases (walletOf db a)) as [[w H]|H].
    + rewrite (exec_createOrGet_existing env a db w H). split; reflexivity.
    + rewrite (exec_createOrGet_missing env a db H). cbn [snd].
      split; [apply walletOf_addWallet_other; exact N|reflexivity].
  - destruct (exec env (ledgerCall a op) db) as [r db'] eqn:E.
    cbn [snd].
    destruct (ledgerCall_cases env db a op r db' E)
      as [(e & _ & ->)|(w & base & _ & _ & -> & Hbase)];
      [split; reflexivity|].
    rewrite (walletOf_settle_other env a b _ _ base N).
    rewrite (rowsOf_settle_other env a b (opPatch env w op)
               (opValues a w op) base eq_refl N).
    destruct Hbase as [(-> & _)|(_ & -> & -> & _)]; [split; reflexivity|].
    split; [apply walletOf_addWallet_other; exact N|reflexivity].
  - split; reflexivity.
  - destruct (exec_summary_store env db a) as [r ->]. split; reflexivity.
Qed.

(** X4.  A call on behalf of one admin leaves the wallet and the
    transaction rows of every other admin as they were, whether the call
    returns or throws. *)
Theorem X4_other_admins_untouched
  (env : Env) (c : Call) (db : Db) (b : string) :
  callAdmin c <> b ->
  walletOf (storeAfter env c db) b = walletOf db b
  /\ rowsOf (storeAfter env c db) b = rowsOf db b.
Proof. apply storeAfter_other. Qed.

Lemma X4_other_admins_untouched_witness :
  walletOf
    (storeAfter Sample.env
       (Ledger "admin-2" (Deposit (Sample.naira 40) "psk-ref-3"))
       Sample.logged)
    Sample.admin
  = walletOf Sample.logged Sample.admin
  /\ rowsOf
       (storeAfter Sample.env
          (Ledger "admin-2" (Deposit (Sample.naira 40) "psk-ref-3"))
          Sample.logged)
       Sample.admin
     = rowsOf Sample.logged Sample.admin.
Proof.
  apply (X4_other_admins_untouched Sample.env
           (Ledger "admin-2" (Deposit (Sample.naira 40) "psk-ref-3"))
           Sample.logged Sample.admin).
  discriminate.
Defined.

(** ** No overdraft *)








(** ** Operations one after the other *)




(** ** The wallet and its log *)

Lemma chained_app (start : Decimal.t) (rows : list Txn.row) (r : Txn.row) :
  chained start rows ->
  Txn.balanceBefore r = closing start rows ->
  chained start (rows ++ [r]).
Proof.
  revert start. induction rows as [|r' rows IH]; intros start C B.
  - split; [exact B|exact I].
  - destruct C as [C1 C2]. split; [exact C1|].
    apply IH; [exact C2|exact B].
Qed.

Lemma closing_app (start : Decimal.t) (rows : list Txn.row) (r : Txn.row) :
  closing start (rows ++ [r]) = Txn.balanceAfter r.
Proof. unfold closing. rewrite fold_left_app. reflexivity. Qed.

Lemma sumOfType_app (type : string) (rows : list Txn.row) (r : Txn.row) :
  sumOfType type (rows ++ [r])
  = sumOfType type rows
    + (if String.eqb (Txn.type r) type then Txn.amount r else 0).
Proof.
  induction rows as [|r' rows IH]; cbn [app sumOfType fold_right].
  - destruct (String.eqb (Txn.type r) type); qc_ring.
  - fold (sumOfType type (rows ++ [r])). fold (sumOfType type rows).
    rewrite IH. destruct (String.eqb (Txn.type r') type); qc_ring.
Qed.

Lemma rowsOf_settle_same env a p (v : Txn.values) db :
  Txn.v_adminId v = a ->
  rowsOf (settle env a p v db) a
  = (rowsOf db a ++ [Txn.stamp (now env) v])%list.
Proof.
  intros Hv. unfold rowsOf, settle. cbn [treasuryWalletTransactions].
  rewrite filter_app. cbn [filter].
  assert (E : txForAdmin a (Txn.stamp (now env) v) = true).
  { unfold txForAdmin. cbn [Txn.stamp Txn.adminId]. rewrite Hv.
    apply String.eqb_refl. }
  rewrite E. reflexivity.
Qed.

Lemma reconciled_created (env : Env) (db base : Db) :
  (forall a, reconciled db a) ->
  Created env db base ->
  forall a, reconciled base a.
Proof.
  intros P C a. destruct C as [|b Hb]; [apply P|].
  destruct (P a) as [Ch W]. split; [exact Ch|].
  change (rowsOf (addWallet (newWallet env (zeroValues b)) db) a)
    with (rowsOf db a).
  destruct (String.string_dec b a) as [->|N].
  - rewrite (walletOf_addWallet env a db Hb). rewrite Hb in W. rewrite W.
    repeat split.
  - rewrite (walletOf_addWallet_other env b a db N). exact W.
Qed.

Lemma reconciled_settled (env : Env) (base db' : Db) :
  (forall a, reconciled base a) ->
  Settled env base db' ->
  forall a, reconciled db' a.
Proof.
  intros P S a. destruct S as [|b w op Hb]; [apply P|].
  destruct (String.string_dec b a) as [->|N].
  - destruct (P a) as [Ch W]. rewrite Hb in W.
    destruct W as (B & D & U & R).
    unfold reconciled.
    rewrite (rowsOf_settle_same env a _ (opValues a w op) base eq_refl).
    rewrite walletOf_settle_same, Hb. cbn [option_map].
    split; [apply chained_app; [exact Ch|exact B]|].
    rewrite closing_app, !sumOfType_app.
    rewrite <- D, <- U, <- R. clear.
    destruct op as [x r|x d c|x d c m];
      cbn [Txn.stamp opValues Txn.type Txn.amount Txn.balanceAfter
           Txn.v_type Txn.v_amount Txn.v_balanceAfter opType opAmount
           balanceDelta String.eqb Ascii.eqb Bool.eqb];
      wallet_fields; repeat split; qc_ring.
  - destruct (P a) as [Ch W]. unfold reconciled.
    rewrite (rowsOf_settle_other env b a (opPatch env w op)
               (opValues b w op) base eq_refl N).
    rewrite (walletOf_settle_other env b a _ _ base N).
    split; assumption.
Qed.

Lemma runCalls_reconciled (cs : list (Env * Call)) (db : Db) :
  (forall a, reconciled db a) ->
  forall a, reconciled (runCalls cs db) a.
Proof.
  apply (runCalls_preserves (fun d => forall a, reconciled d a)).
  - intros env d base. apply reconciled_created.
  - intros env base d'. apply reconciled_settled.
Qed.

(** X7.  The log of an admin is a gapless trail of the wallet.  From a
    store in which wallets and logs agree (the empty store, for one), after
    every sequence of calls the rows of an admin chain: the first starts
    from 0.00 and each next one from the [balanceAfter] of the one before;
    the balance of the wallet is the [balanceAfter] of the last row; and an
    admin without a wallet has no row. *)
Theorem X7_log_is_a_trail (cs : list (Env * Call)) (db : Db) (a : string) :
  (forall b, reconciled db b) ->
  chained Decimal.zero (rowsOf (runCalls cs db) a)
  /\ match walletOf (runCalls cs db) a with
     | Some w =>
         Wallet.balance w = closing Decimal.zero (rowsOf (runCalls cs db) a)
     | None => rowsOf (runCalls cs db) a = []
     end.
Proof.
  intros P. destruct (runCalls_reconciled cs db P a) as [Ch W].
  split; [exact Ch|].
  destruct (walletOf (runCalls cs db) a); [apply W|exact W].
Qed.

Lemma X7_log_is_a_trail_witness :
  chained Decimal.zero
    (rowsOf (runCalls Sample.calls Sample.empty) Sample.admin)
  /\ match walletOf (runCalls Sample.calls Sample.empty) Sample.admin with
     | Some w =>
         Wallet.balance w
         = closing Decimal.zero
             (rowsOf (runCalls Sample.calls Sample.empty) Sample.admin)
     | None => rowsOf (runCalls Sample.calls Sample.empty) Sample.admin = []
     end.
Proof.
  apply (X7_log_is_a_trail Sample.calls Sample.empty Sample.admin).
  intros b. split; [exact I|reflexivity].
Defined.



(** ** The rows the service writes and the panel *)




(** ** The summary of a wallet of the service *)




(** ** Two debits in flight *)





(** ** The request log *)

(** X12.  A request is logged exactly when its path starts with "/api".
    The logged line is never longer than 80 code units: it is the full
    line when that has at most 80 units, and otherwise the first 79 units
    of the full line followed by the ellipsis, 80 units in all. *)
Theorem X12_log_line_bounded
  (method path statusCode duration : Server.JsString)
  (captured : option Server.JsString) (line : Server.JsString) :
  Server.requestLog method path statusCode duration captured = Some line ->
  Server.startsWith (Server.units "/api") path = true
  /\ (List.length line <= 80)%nat
  /\ firstn 79 line
     = firstn 79 (Server.fullLine method path statusCode duration captured)
  /\ ((List.length
         (Server.fullLine method path statusCode duration captured)
       <= 80)%nat ->
      line = Server.fullLine method path statusCode duration captured)
  /\ ((80 < List.length
              (Server.fullLine method path statusCode duration captured))%nat
      -> line
         = (firstn 79
              (Server.fullLine method path statusCode duration captured)
            ++ Server.ellipsis)%list
         /\ List.length line = 80%nat).
Proof.
  unfold Server.requestLog.
  set (full := Server.fullLine method path statusCode duration captured).
  intros E.
  destruct (Server.startsWith (Server.units "/api") path);
    [|discriminate].
  split; [reflexivity|].
  assert (E' : line = if (80 <? List.length full)%nat
                      then (firstn 79 full ++ Server.ellipsis)%list
                      else full).
  { injection E as E. symmetry. exact E. }
  rewrite E'. clear E E'.
  destruct (80 <? List.length full)%nat eqn:L.
  - apply Nat.ltb_lt in L.
    assert (F : List.length (firstn 79 full) = 79%nat)
      by (rewrite length_firstn; lia).
    repeat split.
    + rewrite length_app, F. cbn. lia.
    + rewrite firstn_app, F, Nat.sub_diag, firstn_O, app_nil_r.
      rewrite firstn_firstn. reflexivity.
    + intros; lia.
    + rewrite length_app, F. reflexivity.
  - apply Nat.ltb_ge in L. repeat split; try reflexivity; try lia.
Qed.

Lemma X12_log_line_bounded_witness :
  exists line,
    Server.requestLog Sample.requestMethod Sample.requestPath
      (Server.units "200") (Server.units "12") (Some Sample.requestBody)
    = Some line
    /\ (List.length line <= 80)%nat.
Proof.
  eexists. split; [reflexivity|].
  apply (X12_log_line_bounded Sample.requestMethod Sample.requestPath
           (Server.units "200") (Server.units "12")
           (Some Sample.requestBody)).
  reflexivity.
Defined.

(** ** The error handler *)

(** X13.  The error handler never answers with a status or a message that
    JavaScript counts as false (0, NaN, the empty string, null, undefined):
    the status is [err.status] when that is truthy, else [err.statusCode]
    when that is truthy, else 500, and the message is [err.message] when
    that is truthy, else 'Internal Server Error'. *)
Theorem X13_error_response_truthy (err : Server.Err) :
  Server.truthy (fst (Server.errorResponse err)) = true
  /\ Server.truthy (snd (Server.errorResponse err)) = true
  /\ (Server.truthy (Server.err_status err) = false ->
      Server.truthy (Server.err_statusCode err) = false ->
      fst (Server.errorResponse err) = Server.JsNumber (Q2Qc 500))
  /\ (Server.truthy (Server.err_status err) = false ->
      Server.truthy (Server.err_statusCode err) = true ->
      fst (Server.errorResponse err) = Server.err_statusCode err)
  /\ (Server.truthy (Server.err_status err) = true ->
      fst (Server.errorResponse err) = Server.err_status err)
  /\ (Server.truthy (Server.err_message err) = false ->
      snd (Server.errorResponse err)
      = Server.JsStr (Server.units "Internal Server Error")).
Proof.
  unfold Server.errorResponse, Server.jsOr. cbn [fst snd].
  destruct (Server.truthy (Server.err_status err)) eqn:S;
    destruct (Server.truthy (Server.err_statusCode err)) eqn:C;
    destruct (Server.truthy (Server.err_message err)) eqn:M;
    rewrite ?S, ?C, ?M;
    repeat split; try assumption; try reflexivity; try discriminate.
Qed.

Lemma X13_error_response_truthy_witness :
  fst (Server.errorResponse Sample.notFound)
  = Server.err_statusCode Sample.notFound.
Proof.
  apply (X13_error_response_truthy Sample.notFound).
  - reflexivity.
  - vm_compute. reflexivity.
Defined.

(** ** The console filter *)

Lemma startsWith_spec (p s : Server.JsString) :
  Server.startsWith p s = true <-> exists post, s = (p ++ post)%list.
Proof.
  revert s. induction p as [|c p IH]; intros s; cbn [Server.startsWith].
  - split; [intros _; exists s; reflexivity|reflexivity].
  - destruct s as [|d s].
    + split; [discriminate|]. intros [post E]. discriminate.
    + rewrite andb_true_iff, N.eqb_eq, IH. split.
      * intros [-> [post ->]]. exists post. reflexivity.
      * intros [post E]. injection E as -> ->. split; [reflexivity|].
        exists post. reflexivity.
Qed.

Lemma includes_spec (n h : Server.JsString) :
  Server.includes n h = true
  <-> exists pre post, h = (pre ++ n ++ post)%list.
Proof.
  induction h as [|d h IH].
  - cbn [Server.includes]. rewrite orb_false_r, startsWith_spec. split.
    + intros [post E]. exists [], post. exact E.
    + intros (pre & post & E). destruct pre; [exists post; exact E|].
      discriminate.
  - cbn [Server.includes]. rewrite orb_true_iff, startsWith_spec, IH. split.
    + intros [[post E]|(pre & post & E)].
      * exists [], post. exact E.
      * exists (d :: pre), post. rewrite E. reflexivity.
    + intros (pre & post & E). destruct pre as [|c pre].
      * left. exists post. exact E.
      * right. injection E as _ E. exists pre, post. exact E.
Qed.

Lemma includes_trans (u t s : Server.JsString) :
  Server.includes u t = true ->
  Server.includes t s = true ->
  Server.includes u s = true.
Proof.
  rewrite !includes_spec.
  intros (p1 & q1 & ->) (p2 & q2 & ->).
  exists (p2 ++ p1)%list, (q1 ++ q2)%list.
  rewrite <- !app_assoc. reflexivity.
Qed.

(** X14.  The console filter passes a call on, with its arguments as they
    are, exactly when the joined message contains none of '[INFO]',
    'gramJS', 'Connecting to', 'Connection to' and 'Using LAYER', and
    swallows it otherwise; its test for 'Running gramJS' never decides. *)
Theorem X14_console_filter (args : list Server.JsString) :
  Server.consoleLog args
  = if existsb (fun m => Server.includes m (Server.join args))
               Server.markers
    then None
    else Some args.
Proof.
  unfold Server.consoleLog, Server.markers. cbv zeta. cbn [existsb].
  set (m := Server.join args).
  destruct (Server.includes (Server.units "gramJS") m) eqn:G.
  - rewrite andb_false_r, orb_true_r. reflexivity.
  - assert (R : Server.includes (Server.units "Running gramJS") m = false).
    { destruct (Server.includes (Server.units "Running gramJS") m) eqn:R;
        [|reflexivity].
      rewrite <- G. symmetry.
      apply (includes_trans _ (Server.units "Running gramJS")); [|exact R].
      reflexivity. }
    rewrite R.
    destruct (Server.includes (Server.units "[INFO]") m),
             (Server.includes (Server.units "Connecting to") m),
             (Server.includes (Server.units "Connection to") m),
             (Server.includes (Server.units "Using LAYER") m);
      reflexivity.
Qed.
